(** * nct-id: the Super I/O probe of [scripts/nct-id.c]

    The program talks to a Nuvoton Super I/O chip through [ioperm(2)],
    [outb] and [inb], and reports one line per accessible index port.
    It is embedded here as a state monad over the trace of its
    interactions with the outside world; the outside world answers each
    request as a function of the interactions so far. *)

From Stdlib Require Import ZArith List Bool Lia.
Import ListNotations.
Local Open Scope Z_scope.

(** ** C integer types

    The conversions C applies when a value is bound to a parameter or a
    variable of an unsigned type. *)

Definition u8 (z : Z) : Z := z mod 256.
Definition u16 (z : Z) : Z := z mod 65536.
Definition u32 (z : Z) : Z := z mod 4294967296.

(** ** Interactions with the environment *)

Inductive Event : Type :=
| EvIoperm (from num turn_on ret : Z)   (* ioperm(from, num, turn_on) = ret *)
| EvOutb (port val : Z)                 (* outb(val, port) *)
| EvInb (port val : Z)                  (* inb(port) = val *)
| EvPrintf (IDX devid base : Z).        (* the report line and its three arguments *)

Definition Trace : Type := list Event.

(** The environment: the kernel's answer to a permission request and the
    byte the hardware returns on a port read, each depending on everything
    that happened before. *)
Record Env : Type := {
  env_ioperm : Trace -> Z -> Z -> Z -> Z;
  env_inb : Trace -> Z -> Z
}.

(** ** The monad of interacting computations *)

Definition M (A : Type) : Type := Trace -> A * Trace.

Definition ret {A} (a : A) : M A := fun t => (a, t).

Definition bind {A B} (m : M A) (k : A -> M B) : M B :=
  fun t => let (a, t') := m t in k a t'.

Declare Scope io_scope.
Delimit Scope io_scope with io.
Notation "x <- c1 ;; c2" := (bind c1 (fun x => c2))
  (at level 61, c1 at next level, right associativity) : io_scope.
Notation "c1 ;; c2" := (bind c1 (fun _ => c2))
  (at level 61, right associativity) : io_scope.
Local Open Scope io_scope.

(** C's short-circuit [a || b] on two effectful [int] operands. *)
Definition lor_sc (a b : M Z) : M bool :=
  x <- a ;;
  if negb (x =? 0) then ret true
  else y <- b ;; ret (negb (y =? 0)).

(** The reports printed so far, as the spec's [Found] results. *)
Inductive ProbeResult : Type :=
| Found (port identity baseAddress : Z).

Fixpoint results (t : Trace) : list ProbeResult :=
  match t with
  | [] => []
  | EvPrintf p d b :: t' => Found p d b :: results t'
  | _ :: t' => results t'
  end.

(** Port traffic only: the trace without permission requests and reports. *)
Definition is_port_io (e : Event) : bool :=
  match e with
  | EvOutb _ _ | EvInb _ _ => true
  | _ => false
  end.

Definition port_io (t : Trace) : Trace := filter is_port_io t.

(** The last byte written to port [p], if any. *)
Fixpoint last_outb (p : Z) (t : Trace) : option Z :=
  match t with
  | [] => None
  | e :: t' =>
      match last_outb p t' with
      | Some v => Some v
      | None =>
          match e with
          | EvOutb q v => if q =? p then Some v else None
          | _ => None
          end
      end
  end.

(** I/O permission bits as [ioperm(2)] keeps them: a successful call
    (return value 0) sets the bits of [from .. from+num-1] to [turn_on];
    a failed call changes nothing. *)
Fixpoint io_permitted (t : Trace) (port : Z) (acc : bool) : bool :=
  match t with
  | [] => acc
  | EvIoperm from num turn_on r :: t' =>
      io_permitted t' port
        (if (r =? 0) && (from <=? port) && (port <? from + num)
         then negb (turn_on =? 0) else acc)
  | _ :: t' => io_permitted t' port acc
  end.

Section Program.

Variable E : Env.

(** *** System calls and port instructions of <sys/io.h> *)

Definition ioperm (from num turn_on : Z) : M Z :=
  fun t =>
    let r := env_ioperm E t from num turn_on in
    (r, t ++ [EvIoperm from num turn_on r]).

Definition outb (val port : Z) : M unit :=
  fun t => (tt, t ++ [EvOutb port val]).

Definition inb (port : Z) : M Z :=
  fun t =>
    let v := u8 (env_inb E t port) in
    (v, t ++ [EvInb port v]).

Definition printf (IDX devid base : Z) : M unit :=
  fun t => (tt, t ++ [EvPrintf IDX devid base]).

(** *** nct-id.c *)

(** [static inline void outb_u8(unsigned short port, unsigned char val)] *)
Definition outb_u8 (port val : Z) : M unit :=
  let port := u16 port in
  let val := u8 val in
  outb val port.

(** [static inline unsigned char inb_u8(unsigned short port)] *)
Definition inb_u8 (port : Z) : M Z :=
  let port := u16 port in
  inb port.

(** [static int sio_enter(unsigned short idx)] *)
Definition sio_enter (idx : Z) : M Z :=
  let idx := u16 idx in
  c <- lor_sc (ioperm idx 1 1) (ioperm (idx + 1) 1 1) ;;
  if (c : bool) then ret (-1)
  else
    outb_u8 idx 0x87 ;;
    outb_u8 idx 0x87 ;;
    ret 0.

(** [static void sio_exit(unsigned short idx)] *)
Definition sio_exit (idx : Z) : M unit :=
  let idx := u16 idx in
  outb_u8 idx 0xAA.

(** [static void sio_write_cr(unsigned short idx, unsigned char reg,
    unsigned char val)] *)
Definition sio_write_cr (idx reg val : Z) : M unit :=
  let idx := u16 idx in
  let reg := u8 reg in
  let val := u8 val in
  outb_u8 idx reg ;;
  outb_u8 (idx + 1) val.

(** [static unsigned char sio_read_cr(unsigned short idx, unsigned char reg)] *)
Definition sio_read_cr (idx reg : Z) : M Z :=
  let idx := u16 idx in
  let reg := u8 reg in
  outb_u8 idx reg ;;
  inb_u8 (idx + 1).

(** [unsigned int devid = ((unsigned)id_hi << 8) | id_lo;] *)
Definition devid_of (id_hi id_lo : Z) : Z :=
  u32 (Z.lor (u32 (Z.shiftl (u32 id_hi) 8)) id_lo).

(** [unsigned short base = (ba_hi << 8) | ba_lo;] *)
Definition base_of (ba_hi ba_lo : Z) : Z :=
  u16 (Z.lor (Z.shiftl ba_hi 8) ba_lo).

(** The body of the [for] loop of [main], for [IDX = idx_ports[p]]. *)
Definition probe_candidate (IDX : Z) : M unit :=
  e <- sio_enter IDX ;;
  if negb (e =? 0) then ret tt (* continue *)
  else
    id_hi <- sio_read_cr IDX 0x20 ;;
    id_lo <- sio_read_cr IDX 0x21 ;;
    let devid := devid_of id_hi id_lo in
    sio_write_cr IDX 0x07 0x0B ;;
    ba_hi <- sio_read_cr IDX 0x60 ;;
    ba_lo <- sio_read_cr IDX 0x61 ;;
    let base := base_of ba_hi ba_lo in
    printf IDX devid base ;;
    sio_exit IDX.

(** [for (int p = 0; p < 2; ++p)] over the array [idx_ports]. *)
Fixpoint probe_ports (ports : list Z) : M unit :=
  match ports with
  | [] => ret tt
  | IDX :: rest => probe_candidate IDX ;; probe_ports rest
  end.

(** [unsigned short idx_ports[2] = {0x2E, 0x4E};] *)
Definition idx_ports : list Z := [0x2E; 0x4E].

(** [int main(void)] *)
Definition main : M Z :=
  probe_ports idx_ports ;;
  ret 0.

End Program.

(** ** Vocabulary of the specification *)

(** A 16-bit port address, and an index port whose data port
    [idx + 1] is a 16-bit address too. *)
Definition is_u16 (z : Z) : Prop := 0 <= z < 65536.
Definition is_u8 (z : Z) : Prop := 0 <= z < 256.
Definition valid_index (idx : Z) : Prop := 0 <= idx < 65535.

(** The environment grants both permission requests of a session on [idx],
    whatever happened before. *)
Definition grants (E : Env) (idx : Z) : Prop :=
  forall t, env_ioperm E t idx 1 1 = 0 /\ env_ioperm E t (idx + 1) 1 1 = 0.

(** [acquire] on [idx] fails (AccessDenied), whatever happened before. *)
Definition denies (E : Env) (idx : Z) : Prop :=
  forall t, fst (sio_enter E idx t) <> 0.

(** Reading the data port of [idx] while register [reg] is selected
    returns [v]. *)
Definition register_reads (E : Env) (idx reg v : Z) : Prop :=
  forall t, last_outb idx t = Some reg -> env_inb E t (idx + 1) = v.

(** The bytes read from ports, in the order they were read. *)
Fixpoint inb_values (t : Trace) : list Z :=
  match t with
  | [] => []
  | EvInb _ v :: t' => v :: inb_values t'
  | _ :: t' => inb_values t'
  end.

(** The lock byte written to index port [idx]. *)
Definition is_lock (idx : Z) (e : Event) : bool :=
  match e with
  | EvOutb p v => (p =? idx) && (v =? 0xAA)
  | _ => false
  end.

Definition lock_writes (idx : Z) (t : Trace) : nat :=
  length (filter (is_lock idx) t).

(** The port an event reads or writes. *)
Definition port_of (e : Event) : option Z :=
  match e with
  | EvOutb p _ | EvInb p _ => Some p
  | _ => None
  end.

(** The session state machine of the chip, as a monitor over the trace:
    [Locked] until the byte 0x87 has been written twice in a row to an
    index port, [Unlocked] on that port until 0xAA is written to it.
    Configuration-register traffic (a register number written to the index
    port, a byte read from or written to the data port) is accepted in
    [Unlocked] only, and only on the session's own port pair.  Permission
    requests and reports touch no port and leave the state as it is. *)
Inductive SessionState : Type :=
| Locked
| Unlocking (idx : Z)
| Unlocked (idx : Z).

Definition session_step (s : SessionState) (e : Event) : option SessionState :=
  match e with
  | EvIoperm _ _ _ _ | EvPrintf _ _ _ => Some s
  | EvOutb p v =>
      match s with
      | Locked => if v =? 0x87 then Some (Unlocking p) else None
      | Unlocking idx =>
          if (p =? idx) && (v =? 0x87) then Some (Unlocked idx) else None
      | Unlocked idx =>
          if p =? idx then (if v =? 0xAA then Some Locked else Some (Unlocked idx))
          else if p =? idx + 1 then Some (Unlocked idx)
          else None
      end
  | EvInb p _ =>
      match s with
      | Unlocked idx => if p =? idx + 1 then Some (Unlocked idx) else None
      | _ => None
      end
  end.

Fixpoint session_run (s : SessionState) (t : Trace) : option SessionState :=
  match t with
  | [] => Some s
  | e :: t' =>
      match session_step s e with
      | Some s' => session_run s' t'
      | None => None
      end
  end.

(** ** A fake port backend

    Permission is granted on the ports [granted] accepts; reading a data
    port returns the register of the chip behind it that was last selected
    through the index port, [0xFF] (a floating bus) when none was. *)
Definition fake_env (granted : Z -> bool) (regs : Z -> Z -> Z) : Env :=
  {| env_ioperm := fun _ from _ _ => if granted from then 0 else -1;
     env_inb := fun t port =>
       match last_outb (port - 1) t with
       | Some r => regs (port - 1) r
       | None => 0xFF
       end |}.

(** An NCT6798D with its hardware monitor at 0x0290. *)
Definition nct6798d_regs (idx reg : Z) : Z :=
  if reg =? 0x20 then 0xD4
  else if reg =? 0x21 then 0x28
  else if reg =? 0x60 then 0x02
  else if reg =? 0x61 then 0x90
  else 0xFF.

(** Scenario A: the pair 0x2E/0x2F is accessible, 0x4E/0x4F is reserved. *)
Definition env_scenario_A : Env :=
  fake_env (fun p => (p =? 0x2E) || (p =? 0x2F)) nct6798d_regs.

(** Scenario B: every port is reserved. *)
Definition env_all_denied : Env :=
  fake_env (fun _ => false) nct6798d_regs.

(** The index port 0x2E is accessible but its data port is reserved. *)
Definition env_half_granted : Env :=
  fake_env (fun p => p =? 0x2E) nct6798d_regs.

(** The byte [sio_read_cr idx reg] returns when it starts after [t]. *)
Definition read_byte (E : Env) (t : Trace) (idx reg : Z) : Z :=
  u8 (env_inb E (t ++ [EvOutb idx reg]) (idx + 1)).

(** What an open session on [IDX] adds to the trace, given the four bytes
    the chip returned. *)
Definition session_body (IDX b1 b2 b3 b4 : Z) : Trace :=
  [EvOutb IDX 0x20; EvInb (IDX + 1) b1;
   EvOutb IDX 0x21; EvInb (IDX + 1) b2;
   EvOutb IDX 0x07; EvOutb (IDX + 1) 0x0B;
   EvOutb IDX 0x60; EvInb (IDX + 1) b3;
   EvOutb IDX 0x61; EvInb (IDX + 1) b4;
   EvPrintf IDX (b1 * 256 + b2) (b3 * 256 + b4);
   EvOutb IDX 0xAA].

(** The four bytes an open session on [IDX] reads when its register
    accesses start after [t]. *)
Definition session_bytes (E : Env) (t : Trace) (IDX : Z) : Z * Z * Z * Z :=
  let b1 := read_byte E t IDX 0x20 in
  let t := t ++ [EvOutb IDX 0x20; EvInb (IDX + 1) b1] in
  let b2 := read_byte E t IDX 0x21 in
  let t := t ++ [EvOutb IDX 0x21; EvInb (IDX + 1) b2;
                 EvOutb IDX 0x07; EvOutb (IDX + 1) 0x0B] in
  let b3 := read_byte E t IDX 0x60 in
  let t := t ++ [EvOutb IDX 0x60; EvInb (IDX + 1) b3] in
  let b4 := read_byte E t IDX 0x61 in
  (b1, b2, b3, b4).

(** What a successful [sio_enter] on [IDX] adds to the trace. *)
Definition acquire_events (IDX : Z) : Trace :=
  [EvIoperm IDX 1 1 0; EvIoperm (IDX + 1) 1 1 0;
   EvOutb IDX 0x87; EvOutb IDX 0x87].

(** The three shapes of one loop iteration on [IDX]: permission refused
    on the index port, permission refused on the data port, or a whole
    session. *)
Inductive candidate_segment (IDX : Z) : Trace -> Prop :=
| seg_denied_index r :
    r <> 0 -> candidate_segment IDX [EvIoperm IDX 1 1 r]
| seg_denied_data r :
    r <> 0 ->
    candidate_segment IDX [EvIoperm IDX 1 1 0; EvIoperm (IDX + 1) 1 1 r]
| seg_session b1 b2 b3 b4 :
    is_u8 b1 -> is_u8 b2 -> is_u8 b3 -> is_u8 b4 ->
    candidate_segment IDX (acquire_events IDX ++ session_body IDX b1 b2 b3 b4).

(** The event stays on the index/data port pair of one of [ports]: a write
    goes to an index port or to the port after it, a read comes from the
    port after an index port. *)
Definition on_port_pair (ports : list Z) (e : Event) : Prop :=
  match e with
  | EvOutb p _ => exists c, In c ports /\ (p = c \/ p = c + 1)
  | EvInb p _ => exists c, In c ports /\ p = c + 1
  | _ => True
  end.

(** ** Vocabulary for whole runs of [main] *)

Definition found_port (r : ProbeResult) : Z :=
  match r with Found p _ _ => p end.

Definition found_identity (r : ProbeResult) : Z :=
  match r with Found _ d _ => d end.

Definition found_base (r : ProbeResult) : Z :=
  match r with Found _ _ b => b end.

(** The number of reports printed for index port [c]. *)
Definition reports_for (c : Z) (rs : list ProbeResult) : nat :=
  length (filter (fun r => found_port r =? c) rs).

(** [l1] is [l2] with some elements left out, the order kept. *)
Fixpoint subseq (l1 l2 : list Z) : bool :=
  match l1, l2 with
  | [], _ => true
  | _ :: _, [] => false
  | x :: l1', y :: l2' =>
      if x =? y then subseq l1' l2' else subseq l1 l2'
  end.


(** A property of every event of a trace together with what came before
    it; [pre] is what came before the trace itself. *)
Fixpoint all_positions (P : Trace -> Event -> bool) (pre t : Trace) : bool :=
  match t with
  | [] => true
  | e :: t' => P pre e && all_positions P (pre ++ [e]) t'
  end.

(** The port of the event is accessible after [pre]. *)
Definition port_permitted (pre : Trace) (e : Event) : bool :=
  match port_of e with
  | Some q => io_permitted pre q false
  | None => true
  end.

(** [pre] ends with the selection of register [reg] on index port [idx]. *)
Definition ends_with_select (idx reg : Z) (pre : Trace) : bool :=
  match rev pre with
  | EvOutb q r :: _ => (q =? idx) && (r =? reg)
  | _ => false
  end.

(** The bytes [main] writes to an index port: the unlock byte, the five
    register numbers and the lock byte. *)
Definition index_bytes : list Z := [0x87; 0x20; 0x21; 0x07; 0x60; 0x61; 0xAA].

(** A port write of [main] is either a byte of [index_bytes] to a candidate,
    or the byte 0x0B to the port after a candidate, right after register
    0x07 was selected on that candidate. *)
Definition write_allowed (pre : Trace) (e : Event) : bool :=
  match e with
  | EvOutb p v =>
      (existsb (Z.eqb p) idx_ports && existsb (Z.eqb v) index_bytes) ||
      (existsb (Z.eqb (p - 1)) idx_ports && (v =? 0x0B) &&
       ends_with_select (p - 1) 0x07 pre)
  | _ => true
  end.

(** The report of an accessible chip whose register [reg] behind index
    port [c] reads as [regs c reg]. *)
Definition chip_report (regs : Z -> Z -> Z) (c : Z) : ProbeResult :=
  Found c (u8 (regs c 0x20) * 256 + u8 (regs c 0x21))
          (u8 (regs c 0x60) * 256 + u8 (regs c 0x61)).

(** A permission request that starts at [port]. *)
Definition is_request (port : Z) (e : Event) : bool :=
  match e with
  | EvIoperm from _ _ _ => from =? port
  | _ => false
  end.

(** The unlock byte written to index port [idx]. *)
Definition is_unlock (idx : Z) (e : Event) : bool :=
  match e with
  | EvOutb p v => (p =? idx) && (v =? 0x87)
  | _ => false
  end.

(** Scenario C: both port pairs are accessible. *)
Definition env_all_granted : Env :=
  fake_env (fun _ => true) nct6798d_regs.

(** * Facts *)

Lemma u8_small z : is_u8 z -> u8 z = z.
Proof. unfold is_u8, u8; intros; apply Z.mod_small; lia. Qed.

Lemma u16_small z : is_u16 z -> u16 z = z.
Proof. unfold is_u16, u16; intros; apply Z.mod_small; lia. Qed.

Lemma u8_range z : is_u8 (u8 z).
Proof. unfold is_u8, u8; apply Z.mod_pos_bound; lia. Qed.

Lemma valid_index_u16 idx : valid_index idx -> is_u16 idx /\ is_u16 (idx + 1).
Proof. unfold valid_index, is_u16; lia. Qed.

Lemma idx_ports_valid : Forall valid_index idx_ports.
Proof. unfold idx_ports, valid_index; repeat constructor; lia. Qed.

(** *** Byte pairs *)

Lemma land_shift8_byte hi lo :
  0 <= hi -> is_u8 lo -> Z.land (hi * 2 ^ 8) lo = 0.
Proof.
  intros Hhi [Hlo0 Hlo].
  apply Z.bits_inj'; intros n Hn.
  rewrite Z.land_spec, Z.bits_0.
  destruct (Z.lt_ge_cases n 8) as [Hlt | Hge].
  - rewrite Z.mul_pow2_bits_low by lia. reflexivity.
  - rewrite andb_false_iff; right.
    destruct (Z.eq_dec lo 0) as [-> | Hnz]; [apply Z.bits_0 |].
    apply Z.bits_above_log2; [lia |].
    apply Z.log2_lt_pow2; [lia |].
    apply Z.lt_le_trans with (2 ^ 8); [exact Hlo |].
    apply Z.pow_le_mono_r; lia.
Qed.

Lemma lor_shift8 hi lo :
  0 <= hi -> is_u8 lo -> Z.lor (Z.shiftl hi 8) lo = hi * 256 + lo.
Proof.
  intros Hhi Hlo.
  rewrite Z.shiftl_mul_pow2 by lia.
  rewrite <- Z.lxor_lor by (apply land_shift8_byte; assumption).
  rewrite <- Z.add_nocarry_lxor by (apply land_shift8_byte; assumption).
  reflexivity.
Qed.

Lemma devid_of_bytes hi lo :
  is_u8 hi -> is_u8 lo -> devid_of hi lo = hi * 256 + lo.
Proof.
  intros Hhi Hlo. unfold devid_of, u32.
  assert (H0 : 0 <= hi) by (destruct Hhi; lia).
  rewrite (Z.mod_small hi) by (unfold is_u8 in Hhi; lia).
  rewrite (Z.mod_small (Z.shiftl hi 8))
    by (rewrite Z.shiftl_mul_pow2 by lia; unfold is_u8 in Hhi; lia).
  rewrite lor_shift8 by assumption.
  apply Z.mod_small. unfold is_u8 in *; lia.
Qed.

Lemma base_of_bytes hi lo :
  is_u8 hi -> is_u8 lo -> base_of hi lo = hi * 256 + lo.
Proof.
  intros Hhi Hlo. unfold base_of, u16.
  rewrite lor_shift8 by (unfold is_u8 in *; tauto || lia).
  apply Z.mod_small. unfold is_u8 in *; lia.
Qed.

(** *** Traces *)

Lemma results_app t1 t2 : results (t1 ++ t2) = results t1 ++ results t2.
Proof.
  induction t1 as [| e t1 IH]; [reflexivity |].
  destruct e; simpl; rewrite IH; reflexivity.
Qed.

Lemma session_run_app s t1 t2 :
  session_run s (t1 ++ t2) =
  match session_run s t1 with
  | Some s' => session_run s' t2
  | None => None
  end.
Proof.
  revert s; induction t1 as [| e t1 IH]; intros s; [reflexivity |].
  simpl. destruct (session_step s e); [apply IH | reflexivity].
Qed.

Lemma io_permitted_app t1 t2 port acc :
  io_permitted (t1 ++ t2) port acc = io_permitted t2 port (io_permitted t1 port acc).
Proof.
  revert acc; induction t1 as [| e t1 IH]; intros acc; [reflexivity |].
  destruct e; simpl; apply IH.
Qed.

(** *** One step of each function *)

Section Runs.

Variable E : Env.

Lemma outb_u8_run t port val :
  is_u16 port -> is_u8 val ->
  outb_u8 port val t = (tt, t ++ [EvOutb port val]).
Proof.
  intros Hp Hv. unfold outb_u8, outb.
  rewrite (u16_small _ Hp), (u8_small _ Hv). reflexivity.
Qed.

Lemma inb_u8_run t port :
  is_u16 port ->
  inb_u8 E port t =
  (u8 (env_inb E t port), t ++ [EvInb port (u8 (env_inb E t port))]).
Proof.
  intros Hp. unfold inb_u8, inb. rewrite (u16_small _ Hp). reflexivity.
Qed.

Lemma sio_exit_run t idx :
  is_u16 idx -> sio_exit idx t = (tt, t ++ [EvOutb idx 0xAA]).
Proof.
  intros Hp. unfold sio_exit. rewrite (u16_small _ Hp).
  apply outb_u8_run; [assumption | unfold is_u8; lia].
Qed.

Lemma sio_write_cr_run t idx reg val :
  valid_index idx -> is_u8 reg -> is_u8 val ->
  sio_write_cr idx reg val t =
  (tt, t ++ [EvOutb idx reg; EvOutb (idx + 1) val]).
Proof.
  intros Hi Hr Hv. destruct (valid_index_u16 _ Hi) as [H0 H1].
  unfold sio_write_cr, bind.
  rewrite (u16_small _ H0), (u8_small _ Hr), (u8_small _ Hv).
  rewrite (outb_u8_run t) by assumption.
  rewrite outb_u8_run by assumption.
  rewrite <- app_assoc. reflexivity.
Qed.

Lemma sio_read_cr_run t idx reg :
  valid_index idx -> is_u8 reg ->
  sio_read_cr E idx reg t =
  (read_byte E t idx reg,
   t ++ [EvOutb idx reg; EvInb (idx + 1) (read_byte E t idx reg)]).
Proof.
  intros Hi Hr. destruct (valid_index_u16 _ Hi) as [H0 H1].
  unfold sio_read_cr, bind, read_byte.
  rewrite (u16_small _ H0), (u8_small _ Hr).
  rewrite (outb_u8_run t) by assumption.
  rewrite inb_u8_run by assumption.
  rewrite <- app_assoc. reflexivity.
Qed.

Lemma sio_enter_run t idx :
  is_u16 idx ->
  sio_enter E idx t =
  let r1 := env_ioperm E t idx 1 1 in
  if negb (r1 =? 0) then (-1, t ++ [EvIoperm idx 1 1 r1])
  else
    let r2 := env_ioperm E (t ++ [EvIoperm idx 1 1 r1]) (idx + 1) 1 1 in
    if negb (r2 =? 0)
    then (-1, t ++ [EvIoperm idx 1 1 r1; EvIoperm (idx + 1) 1 1 r2])
    else (0, t ++ [EvIoperm idx 1 1 r1; EvIoperm (idx + 1) 1 1 r2;
                   EvOutb idx 0x87; EvOutb idx 0x87]).
Proof.
  intros Hp. unfold sio_enter, lor_sc, bind, ioperm, ret.
  rewrite (u16_small _ Hp). cbv zeta.
  destruct (negb (env_ioperm E t idx 1 1 =? 0)); [reflexivity |].
  destruct (negb (env_ioperm E (t ++ [EvIoperm idx 1 1 (env_ioperm E t idx 1 1)])
                    (idx + 1) 1 1 =? 0)).
  - rewrite <- app_assoc. reflexivity.
  - rewrite !outb_u8_run by (assumption || (unfold is_u8; lia)).
    rewrite <- !app_assoc. reflexivity.
Qed.

End Runs.

(** *** Outcomes of [sio_enter] and of one loop iteration *)

Section Outcomes.

Variable E : Env.

Lemma u16_is_u16 z : is_u16 (u16 z).
Proof. unfold is_u16, u16; apply Z.mod_pos_bound; lia. Qed.

Lemma sio_enter_u16 t idx : sio_enter E idx t = sio_enter E (u16 idx) t.
Proof.
  unfold sio_enter. rewrite (u16_small (u16 idx)) by apply u16_is_u16.
  reflexivity.
Qed.

(** The events of a successful [sio_enter]. *)
Lemma sio_enter_ok t idx :
  is_u16 idx -> fst (sio_enter E idx t) = 0 ->
  sio_enter E idx t =
  (0, t ++ [EvIoperm idx 1 1 0; EvIoperm (idx + 1) 1 1 0;
            EvOutb idx 0x87; EvOutb idx 0x87]).
Proof.
  intros Hp. rewrite (sio_enter_run E t idx Hp). cbv zeta.
  destruct (Z.eqb_spec (env_ioperm E t idx 1 1) 0) as [e1 | n1]; simpl;
    [| intros H; discriminate H].
  rewrite e1.
  destruct (Z.eqb_spec
              (env_ioperm E (t ++ [EvIoperm idx 1 1 0]) (idx + 1) 1 1) 0)
    as [e2 | n2]; simpl; [| intros H; discriminate H].
  rewrite e2. reflexivity.
Qed.

(** The events of a failed [sio_enter]: permission requests only. *)
Lemma sio_enter_denied t idx :
  fst (sio_enter E idx t) <> 0 ->
  exists ev,
    sio_enter E idx t = (-1, t ++ ev) /\
    port_io ev = [] /\ results ev = [] /\
    (exists r, hd_error ev = Some (EvIoperm (u16 idx) 1 1 r)) /\
    forall s, session_run s ev = Some s.
Proof.
  rewrite sio_enter_u16, (sio_enter_run E t _ (u16_is_u16 idx)). cbv zeta.
  destruct (negb (env_ioperm E t (u16 idx) 1 1 =? 0)).
  - intros _. eexists; repeat split; try reflexivity. eexists; reflexivity.
  - destruct (negb (env_ioperm E _ (u16 idx + 1) 1 1 =? 0)).
    + intros _. eexists; repeat split; try reflexivity. eexists; reflexivity.
    + simpl. intros H; exfalso; apply H; reflexivity.
Qed.

Lemma probe_candidate_denied t IDX :
  fst (sio_enter E IDX t) <> 0 ->
  probe_candidate E IDX t = (tt, snd (sio_enter E IDX t)).
Proof.
  intros H. destruct (sio_enter_denied t IDX H) as (ev & Heq & _).
  unfold probe_candidate, bind. rewrite Heq. reflexivity.
Qed.

Lemma probe_candidate_granted t IDX :
  valid_index IDX -> fst (sio_enter E IDX t) = 0 ->
  let t1 := snd (sio_enter E IDX t) in
  let '(b1, b2, b3, b4) := session_bytes E t1 IDX in
  probe_candidate E IDX t = (tt, t1 ++ session_body IDX b1 b2 b3 b4).
Proof.
  intros Hv Hok. destruct (valid_index_u16 _ Hv) as [H0 H1].
  unfold probe_candidate, bind.
  rewrite (sio_enter_ok t IDX H0 Hok). cbn [fst snd negb Z.eqb].
  set (t1 := t ++ _).
  unfold session_bytes.
  rewrite !sio_read_cr_run by (assumption || (unfold is_u8; lia)).
  rewrite sio_write_cr_run by (assumption || (unfold is_u8; lia)).
  rewrite !sio_read_cr_run by (assumption || (unfold is_u8; lia)).
  unfold printf. rewrite sio_exit_run by assumption.
  rewrite !devid_of_bytes, !base_of_bytes by apply u8_range.
  unfold session_body.
  repeat rewrite <- app_assoc. cbn [app].
  reflexivity.
Qed.

End Outcomes.

(** *** The shape of the trace of the loop *)

Section Segments.

Variable E : Env.

Lemma sio_enter_shape t idx :
  is_u16 idx ->
  (exists r, r <> 0 /\ sio_enter E idx t = (-1, t ++ [EvIoperm idx 1 1 r])) \/
  (exists r, r <> 0 /\
     sio_enter E idx t =
     (-1, t ++ [EvIoperm idx 1 1 0; EvIoperm (idx + 1) 1 1 r])) \/
  sio_enter E idx t = (0, t ++ acquire_events idx).
Proof.
  intros Hp. rewrite (sio_enter_run E t idx Hp). cbv zeta.
  destruct (Z.eqb_spec (env_ioperm E t idx 1 1) 0) as [e1 | n1]; cbn [negb].
  - rewrite e1.
    destruct (Z.eqb_spec
                (env_ioperm E (t ++ [EvIoperm idx 1 1 0]) (idx + 1) 1 1) 0)
      as [e2 | n2]; cbn [negb].
    + rewrite e2. right; right. reflexivity.
    + right; left. eexists; split; [exact n2 | reflexivity].
  - left. eexists; split; [exact n1 | reflexivity].
Qed.

Lemma probe_candidate_segment t IDX :
  valid_index IDX ->
  exists ev,
    probe_candidate E IDX t = (tt, t ++ ev) /\ candidate_segment IDX ev.
Proof.
  intros Hv. destruct (valid_index_u16 _ Hv) as [H0 _].
  destruct (sio_enter_shape t IDX H0)
    as [(r & Hr & Heq) | [(r & Hr & Heq) | Heq]].
  - exists [EvIoperm IDX 1 1 r]. split; [| constructor; exact Hr].
    rewrite probe_candidate_denied by (rewrite Heq; cbn; lia).
    rewrite Heq. reflexivity.
  - exists [EvIoperm IDX 1 1 0; EvIoperm (IDX + 1) 1 1 r].
    split; [| constructor; exact Hr].
    rewrite probe_candidate_denied by (rewrite Heq; cbn; lia).
    rewrite Heq. reflexivity.
  - assert (Hok : fst (sio_enter E IDX t) = 0) by (rewrite Heq; reflexivity).
    pose proof (probe_candidate_granted E t IDX Hv Hok) as Hrun.
    cbv zeta in Hrun. rewrite Heq in Hrun. cbn [snd] in Hrun.
    destruct (session_bytes E _ IDX) as [[[b1 b2] b3] b4] eqn:Hb.
    exists (acquire_events IDX ++ session_body IDX b1 b2 b3 b4).
    split; [rewrite Hrun, app_assoc; reflexivity |].
    unfold session_bytes in Hb. injection Hb as <- <- <- <-.
    constructor; apply u8_range.
Qed.

Lemma probe_ports_segments ports :
  Forall valid_index ports ->
  forall t,
  exists segs,
    probe_ports E ports t = (tt, t ++ concat segs) /\
    Forall2 candidate_segment ports segs.
Proof.
  induction 1 as [| IDX rest Hv _ IH]; intros t.
  - exists []. split; [| constructor].
    cbn. rewrite app_nil_r. reflexivity.
  - destruct (probe_candidate_segment t IDX Hv) as (ev & Hrun & Hseg).
    destruct (IH (t ++ ev)) as (segs & Hrest & Hall).
    exists (ev :: segs). split; [| constructor; assumption].
    cbn [probe_ports concat]. unfold bind at 1.
    rewrite Hrun, Hrest, app_assoc. reflexivity.
Qed.

End Segments.

(** Every shape leaves the chip locked. *)
Lemma segment_session_run IDX ev :
  candidate_segment IDX ev -> session_run Locked ev = Some Locked.
Proof.
  assert (Hne : (IDX + 1 =? IDX) = false) by (apply Z.eqb_neq; lia).
  destruct 1; cbn [session_run session_step acquire_events session_body app];
    try reflexivity.
  repeat (rewrite ?Z.eqb_refl, ?Hne; cbn [session_run session_step andb Z.eqb Pos.eqb]).
  reflexivity.
Qed.

(** Every shape starts by requesting permission on the index port. *)
Lemma segment_requests_index IDX ev :
  candidate_segment IDX ev -> exists r, In (EvIoperm IDX 1 1 r) ev.
Proof.
  destruct 1; eexists; left; reflexivity.
Qed.

(** Every shape stays on the port pair of its candidate. *)
Lemma segment_on_port_pair ports IDX ev :
  In IDX ports -> candidate_segment IDX ev -> Forall (on_port_pair ports) ev.
Proof.
  intros Hin Hseg.
  assert (Hi : exists c, In c ports /\ (IDX = c \/ IDX = c + 1))
    by (exists IDX; auto).
  assert (Hd : exists c, In c ports /\ (IDX + 1 = c \/ IDX + 1 = c + 1))
    by (exists IDX; auto).
  assert (Hr : exists c, In c ports /\ IDX + 1 = c + 1)
    by (exists IDX; auto).
  destruct Hseg; unfold acquire_events, session_body; cbn [app];
    repeat constructor; assumption.
Qed.

Lemma on_port_pair_weaken c ports e :
  on_port_pair ports e -> on_port_pair (c :: ports) e.
Proof.
  destruct e; cbn; auto; intros (x & Hin & Hx); exists x; auto.
Qed.

Lemma segments_on_port_pair ports segs :
  Forall2 candidate_segment ports segs ->
  Forall (on_port_pair ports) (concat segs).
Proof.
  induction 1 as [| IDX ev ports segs Hseg _ IH]; [constructor |].
  cbn [concat]. apply Forall_app. split.
  - apply (segment_on_port_pair _ IDX); [left; reflexivity | exact Hseg].
  - eapply Forall_impl; [| exact IH].
    intros e. apply on_port_pair_weaken.
Qed.

Lemma segments_session_run segs ports :
  Forall2 candidate_segment ports segs ->
  session_run Locked (concat segs) = Some Locked.
Proof.
  induction 1 as [| IDX ev ports segs Hseg _ IH]; [reflexivity |].
  cbn [concat]. rewrite session_run_app, (segment_session_run IDX ev Hseg).
  exact IH.
Qed.

Lemma segments_request_every_index segs ports :
  Forall2 candidate_segment ports segs ->
  forall c, In c ports -> exists r, In (EvIoperm c 1 1 r) (concat segs).
Proof.
  induction 1 as [| IDX ev ports segs Hseg _ IH]; intros c Hin; [destruct Hin |].
  cbn [concat]. destruct Hin as [<- | Hin].
  - destruct (segment_requests_index _ _ Hseg) as (r & Hr).
    exists r. apply in_or_app. left. exact Hr.
  - destruct (IH c Hin) as (r & Hr).
    exists r. apply in_or_app. right. exact Hr.
Qed.

(** *** Selected registers *)

Lemma last_outb_snoc p v t : last_outb p (t ++ [EvOutb p v]) = Some v.
Proof.
  induction t as [| e t IH]; cbn [app last_outb].
  - rewrite Z.eqb_refl. reflexivity.
  - rewrite IH. reflexivity.
Qed.

Lemma read_byte_of_register E idx reg v t :
  register_reads E idx reg v -> is_u8 v -> read_byte E t idx reg = v.
Proof.
  intros Hreg Hv. unfold read_byte.
  rewrite (Hreg _ (last_outb_snoc idx reg t)). apply u8_small. exact Hv.
Qed.

(** *** The monitor at an event in the middle of an accepted trace *)

Lemma session_run_split s pre e post s' :
  session_run s (pre ++ e :: post) = Some s' ->
  exists s1 s2,
    session_run s pre = Some s1 /\ session_step s1 e = Some s2.
Proof.
  rewrite session_run_app.
  destruct (session_run s pre) as [s1 |]; [| discriminate].
  cbn [session_run].
  destruct (session_step s1 e) as [s2 |] eqn:Hstep; [| discriminate].
  intros _. exists s1, s2. split; [reflexivity | exact Hstep].
Qed.

Lemma session_step_inb s p v s' :
  session_step s (EvInb p v) = Some s' ->
  exists idx, s = Unlocked idx /\ p = idx + 1.
Proof.
  destruct s as [| idx | idx]; cbn [session_step]; try discriminate.
  destruct (Z.eqb_spec p (idx + 1)) as [-> | _]; [| discriminate].
  intros _. exists idx. split; reflexivity.
Qed.

Lemma session_step_outb s p v s' :
  session_step s (EvOutb p v) = Some s' ->
  (exists idx, s = Unlocked idx /\ (p = idx \/ p = idx + 1)) \/
  (v = 0x87 /\ (s = Locked \/ s = Unlocking p)).
Proof.
  destruct s as [| idx | idx]; cbn [session_step].
  - destruct (Z.eqb_spec v 0x87) as [-> | _]; [| discriminate].
    intros _. right. split; [reflexivity | left; reflexivity].
  - destruct (Z.eqb_spec p idx) as [-> | _]; [| discriminate].
    destruct (Z.eqb_spec v 0x87) as [-> | _]; [| discriminate].
    intros _. right. split; [reflexivity | right; reflexivity].
  - destruct (Z.eqb_spec p idx) as [-> | _].
    + intros _. left. exists idx. split; [reflexivity | left; reflexivity].
    + destruct (Z.eqb_spec p (idx + 1)) as [-> | _]; [| discriminate].
      intros _. left. exists idx. split; [reflexivity | right; reflexivity].
Qed.

(** *** A run on which every candidate is refused *)

Lemma port_io_app t1 t2 : port_io (t1 ++ t2) = port_io t1 ++ port_io t2.
Proof. apply filter_app. Qed.

Lemma probe_ports_all_denied E ports :
  (forall c, In c ports -> denies E c) ->
  forall t,
    results (snd (probe_ports E ports t)) = results t /\
    port_io (snd (probe_ports E ports t)) = port_io t.
Proof.
  induction ports as [| IDX rest IH]; intros Hden t; [split; reflexivity |].
  assert (Hfail : fst (sio_enter E IDX t) <> 0)
    by (apply Hden; left; reflexivity).
  destruct (sio_enter_denied E t IDX Hfail) as (ev & Heq & Hio & Hres & _).
  assert (Hstep : probe_ports E (IDX :: rest) t = probe_ports E rest (t ++ ev)).
  { cbn [probe_ports]. unfold bind at 1.
    rewrite (probe_candidate_denied E t IDX Hfail), Heq. reflexivity. }
  rewrite Hstep.
  destruct (IH (fun c Hc => Hden c (or_intror Hc)) (t ++ ev)) as [IHr IHp].
  rewrite IHr, IHp, results_app, port_io_app, Hres, Hio, !app_nil_r.
  split; reflexivity.
Qed.

(** *** The fake backend at work *)

Example scenario_A_trace :
  main env_scenario_A [] =
  (0, [EvIoperm 0x2E 1 1 0; EvIoperm 0x2F 1 1 0;
       EvOutb 0x2E 0x87; EvOutb 0x2E 0x87;
       EvOutb 0x2E 0x20; EvInb 0x2F 0xD4;
       EvOutb 0x2E 0x21; EvInb 0x2F 0x28;
       EvOutb 0x2E 0x07; EvOutb 0x2F 0x0B;
       EvOutb 0x2E 0x60; EvInb 0x2F 0x02;
       EvOutb 0x2E 0x61; EvInb 0x2F 0x90;
       EvPrintf 0x2E 0xD428 0x0290;
       EvOutb 0x2E 0xAA;
       EvIoperm 0x4E 1 1 (-1)]).
Proof. reflexivity. Qed.

Example half_granted_trace :
  main env_half_granted [] =
  (0, [EvIoperm 0x2E 1 1 0; EvIoperm 0x2F 1 1 (-1); EvIoperm 0x4E 1 1 (-1)]).
Proof. reflexivity. Qed.

(** * The claims *)

(** C2. Byte pairs are assembled high byte first.  For all bytes [hi] and
    [lo], both the identity expression and the base-address expression of
    [main] evaluate to [hi * 256 + lo], so [hi] is the high byte and [lo]
    the low byte: (0xD4, 0x28) gives 0xD428 and (0x02, 0x90) gives 0x0290.
    In an open session on [IDX] the four bytes are read in the order
    [b1; b2; b3; b4] and the report carries the identity assembled from
    (first read, second read) and the base address assembled from
    (third read, fourth read). *)
Theorem pair_assembly_high_byte_first (E : Env) (t : Trace) (IDX hi lo : Z) :
  is_u8 hi -> is_u8 lo ->
  valid_index IDX -> fst (sio_enter E IDX t) = 0 ->
  (devid_of hi lo = hi * 256 + lo /\
   devid_of hi lo / 256 = hi /\ devid_of hi lo mod 256 = lo) /\
  (base_of hi lo = hi * 256 + lo /\
   base_of hi lo / 256 = hi /\ base_of hi lo mod 256 = lo) /\
  devid_of 0xD4 0x28 = 0xD428 /\
  base_of 0x02 0x90 = 0x0290 /\
  exists ev b1 b2 b3 b4,
    snd (probe_candidate E IDX t) = t ++ ev /\
    inb_values ev = [b1; b2; b3; b4] /\
    results ev = [Found IDX (devid_of b1 b2) (base_of b3 b4)].
Proof.
  intros Hhi Hlo Hv Hok.
  rewrite (devid_of_bytes hi lo Hhi Hlo), (base_of_bytes hi lo Hhi Hlo).
  assert (Hdiv : (hi * 256 + lo) / 256 = hi).
  { rewrite Z.div_add_l by lia. rewrite Z.div_small by (unfold is_u8 in Hlo; lia). lia. }
  assert (Hmod : (hi * 256 + lo) mod 256 = lo).
  { rewrite Z.add_comm, Z.mod_add by lia. apply Z.mod_small. exact Hlo. }
  split; [auto |]. split; [auto |].
  split; [reflexivity |]. split; [reflexivity |].
  pose proof (probe_candidate_granted E t IDX Hv Hok) as Hrun. cbv zeta in Hrun.
  destruct (valid_index_u16 _ Hv) as [H0 _].
  rewrite (sio_enter_ok E t IDX H0 Hok) in Hrun. cbn [snd] in Hrun.
  destruct (session_bytes E _ IDX) as [[[b1 b2] b3] b4] eqn:Hb.
  assert (Hbytes : is_u8 b1 /\ is_u8 b2 /\ is_u8 b3 /\ is_u8 b4).
  { unfold session_bytes in Hb. injection Hb as <- <- <- <-.
    repeat split; apply u8_range. }
  destruct Hbytes as (B1 & B2 & B3 & B4).
  rewrite Hrun. cbn [snd]. rewrite <- app_assoc.
  eexists; exists b1, b2, b3, b4. split; [reflexivity |].
  rewrite devid_of_bytes, base_of_bytes by assumption.
  split; reflexivity.
Qed.

Lemma pair_assembly_high_byte_first_witness :
  (is_u8 0xD4 /\ is_u8 0x28 /\ valid_index 0x2E /\
   fst (sio_enter env_scenario_A 0x2E []) = 0) /\
  (devid_of 0xD4 0x28 = 0xD4 * 256 + 0x28 /\
   devid_of 0xD4 0x28 / 256 = 0xD4 /\ devid_of 0xD4 0x28 mod 256 = 0x28) /\
  (base_of 0xD4 0x28 = 0xD4 * 256 + 0x28 /\
   base_of 0xD4 0x28 / 256 = 0xD4 /\ base_of 0xD4 0x28 mod 256 = 0x28) /\
  devid_of 0xD4 0x28 = 0xD428 /\
  base_of 0x02 0x90 = 0x0290 /\
  exists ev b1 b2 b3 b4,
    snd (probe_candidate env_scenario_A 0x2E []) = [] ++ ev /\
    inb_values ev = [b1; b2; b3; b4] /\
    results ev = [Found 0x2E (devid_of b1 b2) (base_of b3 b4)].
Proof.
  assert (H8a : is_u8 0xD4) by (unfold is_u8; lia).
  assert (H8b : is_u8 0x28) by (unfold is_u8; lia).
  assert (Hv : valid_index 0x2E) by (unfold valid_index; lia).
  assert (Hok : fst (sio_enter env_scenario_A 0x2E []) = 0) by reflexivity.
  split; [exact (conj H8a (conj H8b (conj Hv Hok))) |].
  exact (pair_assembly_high_byte_first env_scenario_A [] 0x2E 0xD4 0x28
           H8a H8b Hv Hok).
Defined.

(** C3. A candidate whose [sio_enter] fails adds nothing to the trace but
    the permission requests: no byte is written to or read from any port
    (so no register read, no register write and no lock write), nothing is
    reported, and the loop goes on with the remaining candidates. *)
Theorem denied_candidate_is_skipped
    (E : Env) (t : Trace) (IDX : Z) (rest : list Z) :
  fst (sio_enter E IDX t) <> 0 ->
  exists ev,
    sio_enter E IDX t = (-1, t ++ ev) /\
    probe_candidate E IDX t = (tt, t ++ ev) /\
    port_io ev = [] /\
    results ev = [] /\
    probe_ports E (IDX :: rest) t = probe_ports E rest (t ++ ev).
Proof.
  intros Hfail.
  destruct (sio_enter_denied E t IDX Hfail) as (ev & Heq & Hio & Hres & _).
  exists ev.
  assert (Hc : probe_candidate E IDX t = (tt, t ++ ev)).
  { rewrite (probe_candidate_denied E t IDX Hfail), Heq. reflexivity. }
  repeat split; try assumption.
  cbn [probe_ports]. unfold bind at 1. rewrite Hc. reflexivity.
Qed.

Lemma denied_candidate_is_skipped_witness :
  fst (sio_enter env_scenario_A 0x4E []) <> 0 /\
  exists ev,
    sio_enter env_scenario_A 0x4E [] = (-1, [] ++ ev) /\
    probe_candidate env_scenario_A 0x4E [] = (tt, [] ++ ev) /\
    port_io ev = [] /\
    results ev = [] /\
    probe_ports env_scenario_A [0x4E; 0x2E] [] =
    probe_ports env_scenario_A [0x2E] ([] ++ ev).
Proof.
  assert (Hfail : fst (sio_enter env_scenario_A 0x4E []) <> 0)
    by (vm_compute; discriminate).
  split; [exact Hfail |].
  exact (denied_candidate_is_skipped env_scenario_A [] 0x4E [0x2E] Hfail).
Defined.

(** C4. A candidate whose [sio_enter] succeeds is released exactly once:
    what the loop iteration adds to the trace is the permission requests,
    the two unlock writes, the register traffic and the report, and then
    the lock write as its very last event; no other lock write to that
    port occurs in the iteration, and the next candidate is taken up only
    after it. *)
Theorem release_exactly_once
    (E : Env) (t : Trace) (IDX : Z) (rest : list Z) :
  valid_index IDX -> fst (sio_enter E IDX t) = 0 ->
  exists grant body,
    snd (sio_enter E IDX t) = t ++ grant ++ [EvOutb IDX 0x87; EvOutb IDX 0x87] /\
    snd (probe_candidate E IDX t) =
      snd (sio_enter E IDX t) ++ body ++ [EvOutb IDX 0xAA] /\
    sio_exit IDX (snd (sio_enter E IDX t) ++ body) =
      (tt, snd (probe_candidate E IDX t)) /\
    lock_writes IDX (grant ++ [EvOutb IDX 0x87; EvOutb IDX 0x87] ++ body) = 0%nat /\
    lock_writes IDX
      (grant ++ [EvOutb IDX 0x87; EvOutb IDX 0x87] ++ body ++ [EvOutb IDX 0xAA])
      = 1%nat /\
    probe_ports E (IDX :: rest) t =
      probe_ports E rest (snd (sio_enter E IDX t) ++ body ++ [EvOutb IDX 0xAA]).
Proof.
  intros Hv Hok. destruct (valid_index_u16 _ Hv) as [H0 _].
  pose proof (probe_candidate_granted E t IDX Hv Hok) as Hrun.
  cbv zeta in Hrun.
  destruct (session_bytes E _ IDX) as [[[b1 b2] b3] b4].
  rewrite Hrun. rewrite (sio_enter_ok E t IDX H0 Hok). cbn [snd].
  assert (Hne : (IDX + 1 =? IDX) = false) by (apply Z.eqb_neq; lia).
  exists [EvIoperm IDX 1 1 0; EvIoperm (IDX + 1) 1 1 0].
  exists (removelast (session_body IDX b1 b2 b3 b4)).
  cbn [removelast session_body app].
  split; [reflexivity |].
  split; [reflexivity |].
  split.
  { rewrite sio_exit_run by assumption.
    rewrite <- app_assoc. reflexivity. }
  split.
  { unfold lock_writes. cbn [filter is_lock].
    rewrite ?Z.eqb_refl, ?Hne. reflexivity. }
  split.
  { unfold lock_writes. cbn [filter is_lock].
    rewrite ?Z.eqb_refl, ?Hne. reflexivity. }
  cbn [probe_ports]. unfold bind at 1.
  rewrite Hrun. rewrite (sio_enter_ok E t IDX H0 Hok). reflexivity.
Qed.

Lemma release_exactly_once_witness :
  (valid_index 0x2E /\ fst (sio_enter env_scenario_A 0x2E []) = 0) /\
  exists grant body,
    snd (sio_enter env_scenario_A 0x2E []) =
      [] ++ grant ++ [EvOutb 0x2E 0x87; EvOutb 0x2E 0x87] /\
    snd (probe_candidate env_scenario_A 0x2E []) =
      snd (sio_enter env_scenario_A 0x2E []) ++ body ++ [EvOutb 0x2E 0xAA] /\
    sio_exit 0x2E (snd (sio_enter env_scenario_A 0x2E []) ++ body) =
      (tt, snd (probe_candidate env_scenario_A 0x2E [])) /\
    lock_writes 0x2E (grant ++ [EvOutb 0x2E 0x87; EvOutb 0x2E 0x87] ++ body) = 0%nat /\
    lock_writes 0x2E
      (grant ++ [EvOutb 0x2E 0x87; EvOutb 0x2E 0x87] ++ body ++ [EvOutb 0x2E 0xAA])
      = 1%nat /\
    probe_ports env_scenario_A [0x2E; 0x4E] [] =
      probe_ports env_scenario_A [0x4E]
        (snd (sio_enter env_scenario_A 0x2E []) ++ body ++ [EvOutb 0x2E 0xAA]).
Proof.
  assert (Hv : valid_index 0x2E) by (unfold valid_index; lia).
  assert (Hok : fst (sio_enter env_scenario_A 0x2E []) = 0) by reflexivity.
  split; [exact (conj Hv Hok) |].
  exact (release_exactly_once env_scenario_A [] 0x2E [0x4E] Hv Hok).
Defined.

(** C5. An open session on [IDX] performs, after the unlock handshake and
    in this order: select register 0x20 and read the data port, select
    0x21 and read (the identity, first byte high); select register 0x07
    and write 0x0B to the data port; select 0x60 and read, select 0x61 and
    read (the base address, first byte high); report [IDX] with the two
    assembled values; and, last, the lock write.  Each step is the call of
    [main] it stands for. *)
Theorem session_protocol_order (E : Env) (t : Trace) (IDX : Z) :
  valid_index IDX -> fst (sio_enter E IDX t) = 0 ->
  exists b1 b2 b3 b4 t1 t2 t3 t4 t5 t6 t7,
    t1 = snd (sio_enter E IDX t) /\
    sio_read_cr E IDX 0x20 t1 = (b1, t2) /\
    sio_read_cr E IDX 0x21 t2 = (b2, t3) /\
    sio_write_cr IDX 0x07 0x0B t3 = (tt, t4) /\
    sio_read_cr E IDX 0x60 t4 = (b3, t5) /\
    sio_read_cr E IDX 0x61 t5 = (b4, t6) /\
    printf IDX (devid_of b1 b2) (base_of b3 b4) t6 = (tt, t7) /\
    sio_exit IDX t7 = (tt, snd (probe_candidate E IDX t)) /\
    devid_of b1 b2 = b1 * 256 + b2 /\
    base_of b3 b4 = b3 * 256 + b4 /\
    snd (probe_candidate E IDX t) =
      t1 ++ [EvOutb IDX 0x20; EvInb (IDX + 1) b1;
             EvOutb IDX 0x21; EvInb (IDX + 1) b2;
             EvOutb IDX 0x07; EvOutb (IDX + 1) 0x0B;
             EvOutb IDX 0x60; EvInb (IDX + 1) b3;
             EvOutb IDX 0x61; EvInb (IDX + 1) b4;
             EvPrintf IDX (b1 * 256 + b2) (b3 * 256 + b4);
             EvOutb IDX 0xAA].
Proof.
  intros Hv Hok. destruct (valid_index_u16 _ Hv) as [H0 _].
  pose proof (probe_candidate_granted E t IDX Hv Hok) as Hrun.
  cbv zeta in Hrun.
  set (t1 := snd (sio_enter E IDX t)) in *.
  destruct (session_bytes E t1 IDX) as [[[b1 b2] b3] b4] eqn:Hb.
  unfold session_bytes in Hb. injection Hb as Hb1 Hb2 Hb3 Hb4.
  assert (B1 : is_u8 b1) by (rewrite <- Hb1; apply u8_range).
  assert (B2 : is_u8 b2) by (rewrite <- Hb2; apply u8_range).
  assert (B3 : is_u8 b3) by (rewrite <- Hb3; apply u8_range).
  assert (B4 : is_u8 b4) by (rewrite <- Hb4; apply u8_range).
  rewrite Hb1 in Hb2, Hb3, Hb4. rewrite Hb2 in Hb3, Hb4. rewrite Hb3 in Hb4.
  repeat rewrite <- app_assoc in Hb3. repeat rewrite <- app_assoc in Hb4.
  cbn [app] in Hb3, Hb4.
  exists b1, b2, b3, b4, t1.
  do 6 eexists.
  split; [reflexivity |].
  split; [rewrite sio_read_cr_run, Hb1 by (assumption || (unfold is_u8; lia)); reflexivity |].
  split; [rewrite sio_read_cr_run, Hb2 by (assumption || (unfold is_u8; lia)); reflexivity |].
  split; [rewrite sio_write_cr_run by (assumption || (unfold is_u8; lia)); reflexivity |].
  split.
  { rewrite sio_read_cr_run by (assumption || (unfold is_u8; lia)).
    rewrite <- !app_assoc. cbn [app]. rewrite Hb3. reflexivity. }
  split.
  { rewrite sio_read_cr_run by (assumption || (unfold is_u8; lia)).
    rewrite <- !app_assoc. cbn [app]. rewrite Hb4. reflexivity. }
  split; [reflexivity |].
  split.
  { rewrite sio_exit_run by assumption. rewrite Hrun.
    rewrite devid_of_bytes, base_of_bytes by assumption.
    unfold session_body. rewrite <- !app_assoc. reflexivity. }
  split; [apply devid_of_bytes; assumption |].
  split; [apply base_of_bytes; assumption |].
  rewrite Hrun. reflexivity.
Qed.

Lemma session_protocol_order_witness :
  (valid_index 0x2E /\ fst (sio_enter env_scenario_A 0x2E []) = 0) /\
  exists b1 b2 b3 b4 t1 t2 t3 t4 t5 t6 t7,
    t1 = snd (sio_enter env_scenario_A 0x2E []) /\
    sio_read_cr env_scenario_A 0x2E 0x20 t1 = (b1, t2) /\
    sio_read_cr env_scenario_A 0x2E 0x21 t2 = (b2, t3) /\
    sio_write_cr 0x2E 0x07 0x0B t3 = (tt, t4) /\
    sio_read_cr env_scenario_A 0x2E 0x60 t4 = (b3, t5) /\
    sio_read_cr env_scenario_A 0x2E 0x61 t5 = (b4, t6) /\
    printf 0x2E (devid_of b1 b2) (base_of b3 b4) t6 = (tt, t7) /\
    sio_exit 0x2E t7 = (tt, snd (probe_candidate env_scenario_A 0x2E [])) /\
    devid_of b1 b2 = b1 * 256 + b2 /\
    base_of b3 b4 = b3 * 256 + b4 /\
    snd (probe_candidate env_scenario_A 0x2E []) =
      t1 ++ [EvOutb 0x2E 0x20; EvInb (0x2E + 1) b1;
             EvOutb 0x2E 0x21; EvInb (0x2E + 1) b2;
             EvOutb 0x2E 0x07; EvOutb (0x2E + 1) 0x0B;
             EvOutb 0x2E 0x60; EvInb (0x2E + 1) b3;
             EvOutb 0x2E 0x61; EvInb (0x2E + 1) b4;
             EvPrintf 0x2E (b1 * 256 + b2) (b3 * 256 + b4);
             EvOutb 0x2E 0xAA].
Proof.
  assert (Hv : valid_index 0x2E) by (unfold valid_index; lia).
  assert (Hok : fst (sio_enter env_scenario_A 0x2E []) = 0) by reflexivity.
  split; [exact (conj Hv Hok) |].
  exact (session_protocol_order env_scenario_A [] 0x2E Hv Hok).
Defined.

(** C6. A successful [sio_enter] on [idx] writes the byte 0x87 to the
    index port twice in a row and touches no other port; [sio_exit] writes
    the single byte 0xAA to the index port and does nothing else. *)
Theorem unlock_and_lock_sequences (E : Env) (t t' : Trace) (idx : Z) :
  is_u16 idx -> fst (sio_enter E idx t) = 0 ->
  (exists ev,
     sio_enter E idx t = (0, t ++ ev) /\
     port_io ev = [EvOutb idx 0x87; EvOutb idx 0x87]) /\
  sio_exit idx t' = (tt, t' ++ [EvOutb idx 0xAA]).
Proof.
  intros Hp Hok. split.
  - eexists. split; [apply (sio_enter_ok E t idx Hp Hok) | reflexivity].
  - apply sio_exit_run. exact Hp.
Qed.

Lemma unlock_and_lock_sequences_witness :
  (is_u16 0x2E /\ fst (sio_enter env_scenario_A 0x2E []) = 0) /\
  (exists ev,
     sio_enter env_scenario_A 0x2E [] = (0, [] ++ ev) /\
     port_io ev = [EvOutb 0x2E 0x87; EvOutb 0x2E 0x87]) /\
  sio_exit 0x2E [EvOutb 0x2E 0x87] = (tt, [EvOutb 0x2E 0x87] ++ [EvOutb 0x2E 0xAA]).
Proof.
  assert (Hp : is_u16 0x2E) by (unfold is_u16; lia).
  assert (Hok : fst (sio_enter env_scenario_A 0x2E []) = 0) by reflexivity.
  split; [exact (conj Hp Hok) |].
  exact (unlock_and_lock_sequences env_scenario_A [] [EvOutb 0x2E 0x87] 0x2E Hp Hok).
Defined.

(** C7. The data port is the index port plus one.  On an index port [idx]
    (with [idx + 1] a port address too) [sio_read_cr] writes the register
    number to [idx] and reads one byte from [idx + 1], and [sio_write_cr]
    writes the register number to [idx] and the value to [idx + 1]; each
    does nothing else.  Both candidates of [main] are such index ports,
    and whatever the environment answers, every port write of [main] goes
    to a candidate or to the port after it, and every port read comes from
    the port after a candidate. *)
Theorem data_port_is_index_plus_one (E : Env) (t : Trace) (idx reg val : Z) :
  valid_index idx -> is_u8 reg -> is_u8 val ->
  (exists v,
     sio_read_cr E idx reg t = (v, t ++ [EvOutb idx reg; EvInb (idx + 1) v])) /\
  sio_write_cr idx reg val t = (tt, t ++ [EvOutb idx reg; EvOutb (idx + 1) val]) /\
  Forall valid_index idx_ports /\
  Forall (on_port_pair idx_ports) (snd (main E [])).
Proof.
  intros Hv Hr Hval.
  split; [eexists; apply sio_read_cr_run; assumption |].
  split; [apply sio_write_cr_run; assumption |].
  split; [exact idx_ports_valid |].
  destruct (probe_ports_segments E idx_ports idx_ports_valid [])
    as (segs & Hrun & Hsegs).
  unfold main, bind. rewrite Hrun. cbn [snd app].
  apply segments_on_port_pair. exact Hsegs.
Qed.

Lemma data_port_is_index_plus_one_witness :
  (valid_index 0x2E /\ is_u8 0x07 /\ is_u8 0x0B) /\
  (exists v,
     sio_read_cr env_scenario_A 0x2E 0x07 [] =
     (v, [] ++ [EvOutb 0x2E 0x07; EvInb (0x2E + 1) v])) /\
  sio_write_cr 0x2E 0x07 0x0B [] =
    (tt, [] ++ [EvOutb 0x2E 0x07; EvOutb (0x2E + 1) 0x0B]) /\
  Forall valid_index idx_ports /\
  Forall (on_port_pair idx_ports) (snd (main env_scenario_A [])).
Proof.
  assert (Hv : valid_index 0x2E) by (unfold valid_index; lia).
  assert (Hr : is_u8 0x07) by (unfold is_u8; lia).
  assert (Hval : is_u8 0x0B) by (unfold is_u8; lia).
  split; [exact (conj Hv (conj Hr Hval)) |].
  exact (data_port_is_index_plus_one env_scenario_A [] 0x2E 0x07 0x0B Hv Hr Hval).
Defined.

(** C1. Scenario A.  When the environment grants both permission requests
    on 0x2E, the chip behind 0x2E/0x2F returns 0xD4 and 0x28 for the
    identity registers 0x20 and 0x21 and 0x02 and 0x90 for the
    base-address registers 0x60 and 0x61, and [sio_enter] on 0x4E is
    refused, then [main] reports exactly one result,
    [Found 0x2E 0xD428 0x0290], and nothing for 0x4E. *)
Theorem scenario_A_single_result (E : Env) :
  grants E 0x2E ->
  register_reads E 0x2E 0x20 0xD4 ->
  register_reads E 0x2E 0x21 0x28 ->
  register_reads E 0x2E 0x60 0x02 ->
  register_reads E 0x2E 0x61 0x90 ->
  denies E 0x4E ->
  results (snd (main E [])) = [Found 0x2E 0xD428 0x0290] /\
  fst (main E []) = 0.
Proof.
  intros Hg H20 H21 H60 H61 Hd.
  assert (Hv : valid_index 0x2E) by (unfold valid_index; lia).
  assert (Hp : is_u16 0x2E) by (unfold is_u16; lia).
  assert (Hok : fst (sio_enter E 0x2E []) = 0).
  { rewrite (sio_enter_run E [] _ Hp). cbv zeta.
    rewrite (proj1 (Hg [])). cbn [negb Z.eqb].
    rewrite (proj2 (Hg _)). reflexivity. }
  pose proof (probe_candidate_granted E [] 0x2E Hv Hok) as Hrun.
  cbv zeta in Hrun.
  rewrite (sio_enter_ok E [] _ Hp Hok) in Hrun. cbn [snd] in Hrun.
  unfold session_bytes in Hrun.
  rewrite (read_byte_of_register E _ _ _ _ H20) in Hrun by (unfold is_u8; lia).
  rewrite (read_byte_of_register E _ _ _ _ H21) in Hrun by (unfold is_u8; lia).
  rewrite (read_byte_of_register E _ _ _ _ H60) in Hrun by (unfold is_u8; lia).
  rewrite (read_byte_of_register E _ _ _ _ H61) in Hrun by (unfold is_u8; lia).
  destruct (sio_enter_denied E (snd (probe_candidate E 0x2E [])) 0x4E (Hd _))
    as (ev & Heq & _ & Hres & _).
  pose proof (probe_candidate_denied E _ 0x4E (Hd (snd (probe_candidate E 0x2E []))))
    as Hskip.
  rewrite Heq in Hskip. cbn [snd] in Hskip.
  unfold main, idx_ports. cbn [probe_ports]. unfold bind, ret.
  destruct (probe_candidate E 0x2E []) as [[] ta] eqn:Ha.
  cbn [snd] in Hskip. rewrite Hskip. cbn [fst snd].
  split; [| reflexivity].
  injection Hrun as ->.
  rewrite results_app, Hres. reflexivity.
Qed.

Lemma scenario_A_single_result_witness :
  (grants env_scenario_A 0x2E /\
   register_reads env_scenario_A 0x2E 0x20 0xD4 /\
   register_reads env_scenario_A 0x2E 0x21 0x28 /\
   register_reads env_scenario_A 0x2E 0x60 0x02 /\
   register_reads env_scenario_A 0x2E 0x61 0x90 /\
   denies env_scenario_A 0x4E) /\
  results (snd (main env_scenario_A [])) = [Found 0x2E 0xD428 0x0290] /\
  fst (main env_scenario_A []) = 0.
Proof.
  assert (Hg : grants env_scenario_A 0x2E)
    by (intros t; split; reflexivity).
  assert (Hreg : forall reg v,
             nct6798d_regs 0x2E reg = v ->
             register_reads env_scenario_A 0x2E reg v).
  { intros reg v Hv t Hsel. cbn [env_scenario_A env_inb fake_env].
    change (0x2E + 1 - 1) with 0x2E. rewrite Hsel. exact Hv. }
  assert (Hd : denies env_scenario_A 0x4E)
    by (intros t; vm_compute; discriminate).
  split.
  - repeat (split; [first [exact Hg | apply Hreg; reflexivity] |]). exact Hd.
  - exact (scenario_A_single_result env_scenario_A Hg
             (Hreg 0x20 0xD4 eq_refl) (Hreg 0x21 0x28 eq_refl)
             (Hreg 0x60 0x02 eq_refl) (Hreg 0x61 0x90 eq_refl) Hd).
Defined.

(** C10. [sio_enter] asks for permission in two separate requests, the
    index port first.  When the first request is refused the second is
    never made; when the first is granted and the second refused,
    [sio_enter] fails after exactly these two requests, it makes no
    request that would turn the index port off again, and the permission
    bit of the index port is still set when it returns; when both are
    granted it succeeds. *)
Theorem acquire_is_not_atomic (E : Env) (t : Trace) (idx : Z) :
  is_u16 idx ->
  let r1 := env_ioperm E t idx 1 1 in
  let r2 := env_ioperm E (t ++ [EvIoperm idx 1 1 r1]) (idx + 1) 1 1 in
  (r1 <> 0 ->
     sio_enter E idx t = (-1, t ++ [EvIoperm idx 1 1 r1])) /\
  (r1 = 0 -> r2 <> 0 ->
     sio_enter E idx t =
       (-1, t ++ [EvIoperm idx 1 1 0; EvIoperm (idx + 1) 1 1 r2]) /\
     forall acc, io_permitted (snd (sio_enter E idx t)) idx acc = true) /\
  (r1 = 0 -> r2 = 0 -> fst (sio_enter E idx t) = 0).
Proof.
  intros Hp r1 r2.
  pose proof (sio_enter_run E t idx Hp) as Hrun. cbv zeta in Hrun.
  fold r1 in Hrun. fold r2 in Hrun.
  split; [| split].
  - intros Hr1. rewrite Hrun.
    destruct (Z.eqb_spec r1 0) as [e | _]; [contradiction | reflexivity].
  - intros Hr1 Hr2.
    assert (Heq : sio_enter E idx t =
                  (-1, t ++ [EvIoperm idx 1 1 0; EvIoperm (idx + 1) 1 1 r2])).
    { rewrite Hrun.
      destruct (Z.eqb_spec r1 0) as [_ | n]; [| contradiction].
      destruct (Z.eqb_spec r2 0) as [e | _]; [contradiction |].
      cbn [negb]. rewrite Hr1. reflexivity. }
    split; [exact Heq |].
    intros acc. rewrite Heq. cbn [snd].
    rewrite io_permitted_app. cbn [io_permitted].
    replace (idx <=? idx) with true by (symmetry; apply Z.leb_le; lia).
    replace (idx <? idx + 1) with true by (symmetry; apply Z.ltb_lt; lia).
    replace (r2 =? 0) with false by (symmetry; apply Z.eqb_neq; exact Hr2).
    reflexivity.
  - intros Hr1 Hr2. rewrite Hrun.
    destruct (Z.eqb_spec r1 0) as [_ | n]; [| contradiction].
    destruct (Z.eqb_spec r2 0) as [_ | n]; [| contradiction].
    reflexivity.
Qed.

Lemma acquire_is_not_atomic_witness :
  is_u16 0x2E /\
  env_ioperm env_half_granted [] 0x2E 1 1 = 0 /\
  sio_enter env_half_granted 0x2E [] =
    (-1, [EvIoperm 0x2E 1 1 0; EvIoperm 0x2F 1 1 (-1)]) /\
  io_permitted (snd (sio_enter env_half_granted 0x2E [])) 0x2E false = true.
Proof.
  assert (Hp : is_u16 0x2E) by (unfold is_u16; lia).
  split; [exact Hp |]. split; [reflexivity |].
  destruct (acquire_is_not_atomic env_half_granted [] 0x2E Hp) as (_ & Hhalf & _).
  destruct (Hhalf eq_refl ltac:(vm_compute; discriminate)) as (Heq & Hperm).
  split; [exact Heq | exact (Hperm false)].
Defined.

(** C8. [main] has no fatal path.  Whatever the environment answers,
    [main] returns 0, and its trace is one segment per candidate, in the
    order of [idx_ports], each of them a refusal on the index port, a
    refusal on the data port or a whole session: every candidate has its
    permission request in the trace.  When the environment refuses every
    candidate, nothing is reported and no port is touched. *)
Theorem probe_never_aborts (E : Env) :
  fst (main E []) = 0 /\
  (exists segs,
     snd (main E []) = concat segs /\
     Forall2 candidate_segment idx_ports segs) /\
  (forall c, In c idx_ports ->
     exists r, In (EvIoperm c 1 1 r) (snd (main E []))) /\
  ((forall c, In c idx_ports -> denies E c) ->
     results (snd (main E [])) = [] /\ port_io (snd (main E [])) = []).
Proof.
  destruct (probe_ports_segments E idx_ports idx_ports_valid [])
    as (segs & Hrun & Hsegs).
  assert (Hmain : main E [] = (0, snd (probe_ports E idx_ports []))).
  { unfold main, bind, ret. destruct (probe_ports E idx_ports []). reflexivity. }
  rewrite Hmain. cbn [fst snd].
  split; [reflexivity |].
  split; [exists segs; rewrite Hrun; split; [reflexivity | exact Hsegs] |].
  split.
  - intros c Hc. rewrite Hrun. cbn [snd app].
    exact (segments_request_every_index segs idx_ports Hsegs c Hc).
  - intros Hden. exact (probe_ports_all_denied E idx_ports Hden []).
Qed.

(** Scenario B on the fake backend: both candidates refused. *)
Example scenario_B_no_result :
  main env_all_denied [] =
  (0, [EvIoperm 0x2E 1 1 (-1); EvIoperm 0x4E 1 1 (-1)]).
Proof. reflexivity. Qed.

(** C9. No register access outside an open session.  Whatever the
    environment answers, the session monitor accepts the whole trace of
    [main] and ends [Locked]; every port read happens in state
    [Unlocked idx] on the data port [idx + 1]; and every port write is
    either one of the two unlock writes, or happens in state
    [Unlocked idx] on [idx] or [idx + 1], the last of them being the lock
    write. *)
Theorem register_access_only_in_session (E : Env) :
  session_run Locked (snd (main E [])) = Some Locked /\
  (forall pre p v post,
     snd (main E []) = pre ++ EvInb p v :: post ->
     exists idx,
       session_run Locked pre = Some (Unlocked idx) /\ p = idx + 1) /\
  (forall pre p v post,
     snd (main E []) = pre ++ EvOutb p v :: post ->
     (exists idx,
        session_run Locked pre = Some (Unlocked idx) /\
        (p = idx \/ p = idx + 1)) \/
     (v = 0x87 /\
      (session_run Locked pre = Some Locked \/
       session_run Locked pre = Some (Unlocking p)))).
Proof.
  assert (Hacc : session_run Locked (snd (main E [])) = Some Locked).
  { destruct (probe_ports_segments E idx_ports idx_ports_valid [])
      as (segs & Hrun & Hsegs).
    unfold main, bind, ret. rewrite Hrun. cbn [snd app].
    exact (segments_session_run segs idx_ports Hsegs). }
  split; [exact Hacc |]. split.
  - intros pre p v post Heq. rewrite Heq in Hacc.
    destruct (session_run_split _ _ _ _ _ Hacc) as (s1 & s2 & Hpre & Hstep).
    destruct (session_step_inb _ _ _ _ Hstep) as (idx & -> & ->).
    exists idx. split; [exact Hpre | reflexivity].
  - intros pre p v post Heq. rewrite Heq in Hacc.
    destruct (session_run_split _ _ _ _ _ Hacc) as (s1 & s2 & Hpre & Hstep).
    destruct (session_step_outb _ _ _ _ Hstep)
      as [(idx & -> & Hp) | (Hv & [-> | ->])].
    + left. exists idx. split; [exact Hpre | exact Hp].
    + right. split; [exact Hv | left; exact Hpre].
    + right. split; [exact Hv | right; exact Hpre].
Qed.

(** * Whole runs of [main] *)

Lemma all_positions_spec P t :
  forall pre0,
    all_positions P pre0 t = true ->
    forall pre e post, t = pre ++ e :: post -> P (pre0 ++ pre) e = true.
Proof.
  induction t as [| a t IH]; intros pre0 Hall pre e post Heq.
  - destruct pre; discriminate Heq.
  - cbn [all_positions] in Hall. apply andb_prop in Hall as [Ha Ht].
    destruct pre as [| x pre]; cbn [app] in Heq; injection Heq as -> ->.
    + rewrite app_nil_r. exact Ha.
    + specialize (IH _ Ht pre e post eq_refl).
      rewrite <- app_assoc in IH. exact IH.
Qed.

(** The trace of [main] is the segment of 0x2E followed by that of 0x4E. *)
Lemma main_trace_segments (E : Env) :
  exists s1 s2,
    main E [] = (0, s1 ++ s2) /\
    candidate_segment 0x2E s1 /\ candidate_segment 0x4E s2.
Proof.
  destruct (probe_ports_segments E idx_ports idx_ports_valid [])
    as (segs & Hrun & Hsegs).
  unfold idx_ports in Hsegs.
  inversion Hsegs as [| c1 s1 ports1 segs1 H1 Hrest]; subst.
  inversion Hrest as [| c2 s2 ports2 segs2 H2 Hnil]; subst.
  inversion Hnil; subst.
  exists s1, s2. split; [| split; assumption].
  unfold main, bind, ret. rewrite Hrun. cbn [concat app].
  rewrite app_nil_r. reflexivity.
Qed.

(** A refused request returned a positive or a negative number. *)
Ltac refused r Hr :=
  destruct r as [| ? | ?]; [exfalso; apply Hr; reflexivity | |].

(** The nine shapes of the trace of [main]. *)
Ltac main_shapes E :=
  let s1 := fresh "s1" in
  let s2 := fresh "s2" in
  let Hmain := fresh "Hmain" in
  let Hs1 := fresh "Hs1" in
  let Hs2 := fresh "Hs2" in
  let r := fresh "r" in
  let Hr := fresh "Hr" in
  let r' := fresh "r'" in
  let Hr' := fresh "Hr'" in
  destruct (main_trace_segments E) as (s1 & s2 & Hmain & Hs1 & Hs2);
  rewrite Hmain; clear Hmain; cbn [fst snd];
  destruct Hs1 as [r Hr | r Hr | a1 a2 a3 a4 A1 A2 A3 A4];
  destruct Hs2 as [r' Hr' | r' Hr' | c1 c2 c3 c4 C1 C2 C3 C4];
  try refused r Hr; try refused r' Hr'.

(** X1. No port is touched without permission.  Whatever the environment
    answers, each port read and each port write of [main] happens when the
    permission bit of that port is set: an earlier [ioperm] call on it
    returned 0 and nothing turned it off since. *)
Theorem port_access_is_permitted
    (E : Env) (pre post : Trace) (e : Event) (q : Z) :
  snd (main E []) = pre ++ e :: post ->
  port_of e = Some q ->
  io_permitted pre q false = true.
Proof.
  intros Hsplit Hport.
  assert (Hall : all_positions port_permitted [] (snd (main E [])) = true).
  { main_shapes E; reflexivity. }
  pose proof (all_positions_spec _ _ [] Hall pre e post Hsplit) as Hp.
  cbn [app] in Hp. unfold port_permitted in Hp. rewrite Hport in Hp. exact Hp.
Qed.

Lemma port_access_is_permitted_witness :
  (snd (main env_scenario_A []) =
     [EvIoperm 0x2E 1 1 0; EvIoperm 0x2F 1 1 0;
      EvOutb 0x2E 0x87; EvOutb 0x2E 0x87; EvOutb 0x2E 0x20]
     ++ EvInb 0x2F 0xD4
     :: [EvOutb 0x2E 0x21; EvInb 0x2F 0x28;
         EvOutb 0x2E 0x07; EvOutb 0x2F 0x0B;
         EvOutb 0x2E 0x60; EvInb 0x2F 0x02;
         EvOutb 0x2E 0x61; EvInb 0x2F 0x90;
         EvPrintf 0x2E 0xD428 0x0290; EvOutb 0x2E 0xAA;
         EvIoperm 0x4E 1 1 (-1)] /\
   port_of (EvInb 0x2F 0xD4) = Some 0x2F) /\
  io_permitted
    [EvIoperm 0x2E 1 1 0; EvIoperm 0x2F 1 1 0;
     EvOutb 0x2E 0x87; EvOutb 0x2E 0x87; EvOutb 0x2E 0x20] 0x2F false = true.
Proof.
  split; [split; reflexivity |].
  exact (port_access_is_permitted env_scenario_A
           [EvIoperm 0x2E 1 1 0; EvIoperm 0x2F 1 1 0;
            EvOutb 0x2E 0x87; EvOutb 0x2E 0x87; EvOutb 0x2E 0x20]
           [EvOutb 0x2E 0x21; EvInb 0x2F 0x28;
            EvOutb 0x2E 0x07; EvOutb 0x2F 0x0B;
            EvOutb 0x2E 0x60; EvInb 0x2F 0x02;
            EvOutb 0x2E 0x61; EvInb 0x2F 0x90;
            EvPrintf 0x2E 0xD428 0x0290; EvOutb 0x2E 0xAA;
            EvIoperm 0x4E 1 1 (-1)]
           (EvInb 0x2F 0xD4) 0x2F eq_refl eq_refl).
Defined.



Lemma ends_with_select_spec idx reg pre :
  ends_with_select idx reg pre = true ->
  exists pre', pre = pre' ++ [EvOutb idx reg].
Proof.
  unfold ends_with_select. intros H.
  destruct (rev pre) as [| e l] eqn:Hrev; [discriminate H |].
  destruct e as [| q r | |]; try discriminate H.
  apply andb_prop in H as [Hq Hr].
  apply Z.eqb_eq in Hq, Hr. subst q r.
  exists (rev l). rewrite <- (rev_involutive pre), Hrev. reflexivity.
Qed.

Lemma existsb_eqb_In x l : existsb (Z.eqb x) l = true -> In x l.
Proof.
  intros H. apply existsb_exists in H as (y & Hy & Hxy).
  apply Z.eqb_eq in Hxy. subst y. exact Hy.
Qed.

(** X3. The only configuration register [main] ever writes is the device
    select.  Whatever the environment answers, each port write of [main]
    is either one of the seven protocol bytes (unlock, the register
    numbers 0x20, 0x21, 0x07, 0x60, 0x61, lock) to a candidate index port,
    or the byte 0x0B to the data port of a candidate, immediately after
    register 0x07 was selected on that candidate. *)
Theorem writes_are_protocol_bytes (E : Env) (pre post : Trace) (p v : Z) :
  snd (main E []) = pre ++ EvOutb p v :: post ->
  (In p idx_ports /\ In v index_bytes) \/
  (In (p - 1) idx_ports /\ v = 0x0B /\
   exists pre', pre = pre' ++ [EvOutb (p - 1) 0x07]).
Proof.
  intros Hsplit.
  assert (Hall : all_positions write_allowed [] (snd (main E [])) = true).
  { main_shapes E; reflexivity. }
  pose proof (all_positions_spec _ _ [] Hall pre _ post Hsplit) as Hw.
  cbn [app write_allowed] in Hw.
  apply orb_prop in Hw as [Hw | Hw].
  - apply andb_prop in Hw as [Hp Hv]. left.
    split; apply existsb_eqb_In; assumption.
  - apply andb_prop in Hw as [Hw Hsel]. apply andb_prop in Hw as [Hp Hv].
    right. split; [apply existsb_eqb_In; exact Hp |].
    split; [apply Z.eqb_eq; exact Hv |].
    apply ends_with_select_spec. exact Hsel.
Qed.

Lemma writes_are_protocol_bytes_witness :
  snd (main env_scenario_A []) =
    [EvIoperm 0x2E 1 1 0; EvIoperm 0x2F 1 1 0;
     EvOutb 0x2E 0x87; EvOutb 0x2E 0x87;
     EvOutb 0x2E 0x20; EvInb 0x2F 0xD4;
     EvOutb 0x2E 0x21; EvInb 0x2F 0x28;
     EvOutb 0x2E 0x07]
    ++ EvOutb 0x2F 0x0B
    :: [EvOutb 0x2E 0x60; EvInb 0x2F 0x02;
        EvOutb 0x2E 0x61; EvInb 0x2F 0x90;
        EvPrintf 0x2E 0xD428 0x0290; EvOutb 0x2E 0xAA;
        EvIoperm 0x4E 1 1 (-1)] /\
  ((In 0x2F idx_ports /\ In 0x0B index_bytes) \/
   (In (0x2F - 1) idx_ports /\ 0x0B = 0x0B /\
    exists pre',
      [EvIoperm 0x2E 1 1 0; EvIoperm 0x2F 1 1 0;
       EvOutb 0x2E 0x87; EvOutb 0x2E 0x87;
       EvOutb 0x2E 0x20; EvInb 0x2F 0xD4;
       EvOutb 0x2E 0x21; EvInb 0x2F 0x28;
       EvOutb 0x2E 0x07] = pre' ++ [EvOutb (0x2F - 1) 0x07])).
Proof.
  split; [reflexivity |].
  exact (writes_are_protocol_bytes env_scenario_A
           [EvIoperm 0x2E 1 1 0; EvIoperm 0x2F 1 1 0;
            EvOutb 0x2E 0x87; EvOutb 0x2E 0x87;
            EvOutb 0x2E 0x20; EvInb 0x2F 0xD4;
            EvOutb 0x2E 0x21; EvInb 0x2F 0x28;
            EvOutb 0x2E 0x07]
           [EvOutb 0x2E 0x60; EvInb 0x2F 0x02;
            EvOutb 0x2E 0x61; EvInb 0x2F 0x90;
            EvPrintf 0x2E 0xD428 0x0290; EvOutb 0x2E 0xAA;
            EvIoperm 0x4E 1 1 (-1)]
           0x2F 0x0B eq_refl).
Defined.

Lemma lock_writes_cons c e t :
  lock_writes c (e :: t) =
  ((if is_lock c e then 1 else 0) + lock_writes c t)%nat.
Proof.
  unfold lock_writes. cbn [filter]. destruct (is_lock c e); reflexivity.
Qed.

Lemma reports_for_cons c r rs :
  reports_for c (r :: rs) =
  ((if (found_port r =? c)%Z then 1 else 0) + reports_for c rs)%nat.
Proof.
  unfold reports_for. cbn [filter]. destruct (found_port r =? c); reflexivity.
Qed.

(** X4. Reports and sessions go together.  Whatever the environment
    answers, the index ports [main] reports are candidates, each at most
    once and in the order of [idx_ports]; every reported identity and base
    address is a 16-bit value; and for every port [c] the number of lock
    writes to [c] in the whole run equals the number of reports for [c]. *)
Theorem reports_match_sessions (E : Env) (c : Z) :
  let tr := snd (main E []) in
  let rs := results tr in
  subseq (map found_port rs) idx_ports = true /\
  Forall (fun r => 0 <= found_identity r < 65536 /\
                   0 <= found_base r < 65536) rs /\
  lock_writes c tr = reports_for c rs /\
  (reports_for c rs <= 1)%nat.
Proof.
  cbv zeta.
  main_shapes E; unfold acquire_events, session_body;
    cbn [app results map found_port].
  all: split; [reflexivity |].
  all: split;
    [repeat apply Forall_cons; try apply Forall_nil;
     cbn [found_identity found_base]; unfold is_u8 in *; lia |].
  all: repeat rewrite lock_writes_cons; repeat rewrite reports_for_cons.
  all: cbn [is_lock found_port].
  all: destruct (Z.eqb_spec 0x2E c); destruct (Z.eqb_spec (0x2E + 1) c);
    destruct (Z.eqb_spec 0x4E c); destruct (Z.eqb_spec (0x4E + 1) c);
    try lia.
  all: unfold lock_writes, reports_for; cbn; split; [reflexivity | lia].
Qed.

Lemma grants_enter_ok E idx t :
  is_u16 idx -> grants E idx -> fst (sio_enter E idx t) = 0.
Proof.
  intros Hp Hg. rewrite (sio_enter_run E t idx Hp). cbv zeta.
  rewrite (proj1 (Hg t)). cbn [negb Z.eqb].
  rewrite (proj2 (Hg _)). reflexivity.
Qed.

Lemma read_byte_of_register_u8 E idx reg v t :
  register_reads E idx reg v -> read_byte E t idx reg = u8 v.
Proof.
  intros Hreg. unfold read_byte.
  rewrite (Hreg _ (last_outb_snoc idx reg t)). reflexivity.
Qed.

Lemma fake_env_register_reads granted regs idx reg :
  register_reads (fake_env granted regs) idx reg (regs idx reg).
Proof.
  intros t Hsel. cbn [fake_env env_inb].
  replace (idx + 1 - 1) with idx by lia.
  rewrite Hsel. reflexivity.
Qed.

(** The reports of the loop over any list of index ports, against chips
    that behave as register files. *)
Lemma probe_ports_reports E (granted : Z -> bool) (regs : Z -> Z -> Z) ports :
  Forall valid_index ports ->
  (forall c, In c ports -> granted c = true -> grants E c) ->
  (forall c, In c ports -> granted c = false -> denies E c) ->
  (forall c reg, In c ports -> register_reads E c reg (regs c reg)) ->
  forall t,
    results (snd (probe_ports E ports t)) =
    results t ++ map (chip_report regs) (filter granted ports).
Proof.
  induction 1 as [| IDX rest Hv _ IH]; intros Hg Hd Hr t.
  - cbn. rewrite app_nil_r. reflexivity.
  - assert (Hin : In IDX (IDX :: rest)) by (left; reflexivity).
    specialize (IH (fun c Hc => Hg c (or_intror Hc))
                   (fun c Hc => Hd c (or_intror Hc))
                   (fun c reg Hc => Hr c reg (or_intror Hc))).
    destruct (valid_index_u16 _ Hv) as [H0 _].
    cbn [probe_ports filter]. unfold bind at 1.
    destruct (granted IDX) eqn:Hgr.
    + pose proof (grants_enter_ok E IDX t H0 (Hg IDX Hin Hgr)) as Hok.
      pose proof (probe_candidate_granted E t IDX Hv Hok) as Hrun.
      cbv zeta in Hrun.
      rewrite (sio_enter_ok E t IDX H0 Hok) in Hrun. cbn [snd] in Hrun.
      unfold session_bytes in Hrun.
      rewrite !(read_byte_of_register_u8 E IDX _ _ _ (Hr IDX _ Hin)) in Hrun.
      rewrite Hrun, IH.
      rewrite !results_app. cbn [results session_body map app].
      rewrite app_nil_r, <- app_assoc. reflexivity.
    + pose proof (Hd IDX Hin Hgr t) as Hfail.
      destruct (sio_enter_denied E t IDX Hfail) as (ev & Heq & _ & Hres & _).
      rewrite (probe_candidate_denied E t IDX Hfail), Heq. cbn [snd].
      rewrite IH, results_app, Hres, app_nil_r. reflexivity.
Qed.

(** X5. [main] reports exactly the accessible chips.  Let the environment
    grant the candidates [granted] accepts and refuse the others, and let
    register [reg] of the chip behind candidate [c] read as [regs c reg].
    Then the reports of [main] are, in the order of [idx_ports], one per
    granted candidate [c], with the identity assembled from registers
    0x20 (high byte) and 0x21 (low byte) and the base address from
    registers 0x60 (high byte) and 0x61 (low byte) of that chip. *)
Theorem probe_reports_accessible_chips
    (E : Env) (granted : Z -> bool) (regs : Z -> Z -> Z) :
  (forall c, In c idx_ports -> granted c = true -> grants E c) ->
  (forall c, In c idx_ports -> granted c = false -> denies E c) ->
  (forall c reg, In c idx_ports -> register_reads E c reg (regs c reg)) ->
  results (snd (main E [])) =
  map (chip_report regs) (filter granted idx_ports).
Proof.
  intros Hg Hd Hr.
  pose proof (probe_ports_reports E granted regs idx_ports
                idx_ports_valid Hg Hd Hr []) as Hrep.
  unfold main, bind, ret.
  destruct (probe_ports E idx_ports []) as [u tr]. exact Hrep.
Qed.

Lemma probe_reports_accessible_chips_witness :
  ((forall c, In c idx_ports -> true = true -> grants env_all_granted c) /\
   (forall c, In c idx_ports -> true = false -> denies env_all_granted c) /\
   (forall c reg, In c idx_ports ->
      register_reads env_all_granted c reg (nct6798d_regs c reg))) /\
  results (snd (main env_all_granted [])) =
  map (chip_report nct6798d_regs) (filter (fun _ => true) idx_ports).
Proof.
  assert (Hg : forall c, In c idx_ports -> true = true ->
                         grants env_all_granted c)
    by (intros c _ _ t; split; reflexivity).
  assert (Hd : forall c, In c idx_ports -> true = false ->
                         denies env_all_granted c)
    by (intros c _ Hf; discriminate Hf).
  assert (Hr : forall c reg, In c idx_ports ->
                 register_reads env_all_granted c reg (nct6798d_regs c reg))
    by (intros c reg _; apply fake_env_register_reads).
  split; [exact (conj Hg (conj Hd Hr)) |].
  exact (probe_reports_accessible_chips env_all_granted (fun _ => true)
           nct6798d_regs Hg Hd Hr).
Defined.

(** Scenario C on the fake backend: two sessions, one after the other. *)
Example scenario_C_two_results :
  results (snd (main env_all_granted [])) =
  [Found 0x2E 0xD428 0x0290; Found 0x4E 0xD428 0x0290].
Proof. reflexivity. Qed.

(** X6. No candidate is tried twice.  Whatever the environment answers,
    [main] requests permission on each candidate index port exactly once
    and on its data port at most once; the number of unlock writes to the
    candidate is twice the number of reports for it; and without a
    request on the data port there is no report. *)
Theorem each_candidate_requested_once (E : Env) (c : Z) :
  In c idx_ports ->
  let tr := snd (main E []) in
  length (filter (is_request c) tr) = 1%nat /\
  (length (filter (is_request (c + 1)) tr) <= 1)%nat /\
  length (filter (is_unlock c) tr) = (2 * reports_for c (results tr))%nat /\
  (length (filter (is_request (c + 1)) tr) = 0%nat ->
   reports_for c (results tr) = 0%nat).
Proof.
  intros Hin. cbv zeta.
  destruct Hin as [<- | [<- | []]];
    main_shapes E; unfold acquire_events, session_body, reports_for;
    cbn; repeat split; solve [reflexivity | lia | discriminate].
Qed.

Lemma each_candidate_requested_once_witness :
  In 0x4E idx_ports /\
  length (filter (is_request 0x4E) (snd (main env_scenario_A []))) = 1%nat /\
  (length (filter (is_request (0x4E + 1)) (snd (main env_scenario_A []))) <= 1)%nat /\
  length (filter (is_unlock 0x4E) (snd (main env_scenario_A []))) =
    (2 * reports_for 0x4E (results (snd (main env_scenario_A []))))%nat /\
  (length (filter (is_request (0x4E + 1)) (snd (main env_scenario_A []))) = 0%nat ->
   reports_for 0x4E (results (snd (main env_scenario_A []))) = 0%nat).
Proof.
  assert (Hin : In 0x4E idx_ports) by (right; left; reflexivity).
  split; [exact Hin |].
  exact (each_candidate_requested_once env_scenario_A 0x4E Hin).
Defined.
